(** * airlock.chat: the browser-side input bridge (www/index.js)

    The script keeps one record of four direction flags, written by the
    [keydown] and [keyup] listeners of the document, creates one game object
    through the wasm package, and drives a render loop with
    [requestAnimationFrame]: every frame forwards the flags to [game.draw] and
    writes a status line.

    The embedding is shallow.  The module-level objects become the fields of a
    [Page] record, the statements of [drawOneFrame] run in a state monad over
    that record, and the browser is a machine that feeds the page key events
    and animation frames. *)

From Stdlib Require Import String List Bool ZArith Floats.
Import ListNotations.
Open Scope string_scope.
Open Scope list_scope.

(** ** JavaScript values *)

(** The language types of ECMAScript.  The script inspects a value in two
    places only: [ev.key] under the strict comparison of [switch], and the
    result of [game.draw] under [== null].  An object carries its identity
    and whether it has the [[IsHTMLDDA]] internal slot, which a browser
    gives to [document.all]. *)
Inductive JsValue : Type :=
| JsUndefined
| JsNull
| JsBoolean (b : bool)
| JsNumber (x : float)
| JsBigInt (z : Z)
| JsString (s : string)
| JsSymbol (n : nat)
| JsObject (ref : nat) (is_htmldda : bool).

(** [v == null]: loose equality with [null] holds of [null], of [undefined]
    and of an object with the [[IsHTMLDDA]] slot (ECMA-262, B.3.6.2), and of
    no other value: no coercion applies to [null]. *)
Definition loose_eq_null (v : JsValue) : bool :=
  match v with
  | JsUndefined | JsNull => true
  | JsObject _ is_htmldda => is_htmldda
  | _ => false
  end.

(** [v === 'lit']: the comparison a [case 'lit':] label makes. *)
Definition strict_eq_string (v : JsValue) (lit : string) : bool :=
  match v with
  | JsString s => String.eqb s lit
  | _ => false
  end.

Notation "v === lit" := (strict_eq_string v lit) (at level 70, no associativity).

(** ** The input record *)

(** [const curInput = { up, down, left, right }]. *)
Record InputState : Type := mkInputState {
  up : bool;
  down : bool;
  left : bool;
  right : bool
}.

(** Assignments to one property of the record. *)
Definition set_up (b : bool) (ci : InputState) : InputState :=
  mkInputState b (down ci) (left ci) (right ci).
Definition set_down (b : bool) (ci : InputState) : InputState :=
  mkInputState (up ci) b (left ci) (right ci).
Definition set_left (b : bool) (ci : InputState) : InputState :=
  mkInputState (up ci) (down ci) b (right ci).
Definition set_right (b : bool) (ci : InputState) : InputState :=
  mkInputState (up ci) (down ci) (left ci) b.

(** The part of a keyboard event the listeners read. *)
Record KeyboardEvent : Type := mkKeyboardEvent { key : JsValue }.

(** The [keydown] listener: a [switch] on [ev.key] with four labels, each
    followed by [break], and no [default]. *)
Definition keydown_handler (ev : KeyboardEvent) (ci : InputState) : InputState :=
  if key ev === "ArrowUp" then set_up true ci
  else if key ev === "ArrowDown" then set_down true ci
  else if key ev === "ArrowLeft" then set_left true ci
  else if key ev === "ArrowRight" then set_right true ci
  else ci.

(** The [keyup] listener. *)
Definition keyup_handler (ev : KeyboardEvent) (ci : InputState) : InputState :=
  if key ev === "ArrowUp" then set_up false ci
  else if key ev === "ArrowDown" then set_down false ci
  else if key ev === "ArrowLeft" then set_left false ci
  else if key ev === "ArrowRight" then set_right false ci
  else ci.

(** ** The wasm package *)

(** [import * as wasm from "rust-us"]: the package is not part of the script;
    it is taken as an interface.  [Wasm] is the state of the instance, which
    both operations may change.  A call of [draw] completes and returns a
    JavaScript value, of any type; a call that throws is not modelled. *)
Class RustUs : Type := {
  Wasm : Type;
  GameHandle : Type;
  make_game : Wasm -> GameHandle * Wasm;
  draw : GameHandle -> bool -> bool -> bool -> bool -> Wasm -> JsValue * Wasm
}.

(** ** The page *)

(** The two arrow functions passed to [addEventListener]. *)
Inductive Listener : Type := KeydownListener | KeyupListener.

(** The one function passed to [requestAnimationFrame]. *)
Inductive Callback : Type := DrawOneFrame.

(** DOM elements, and references to the two the script creates. *)
Record Element : Type := mkElement {
  tagName : string;
  id : string;
  innerText : string
}.

Inductive NodeRef : Type := OutputNode | CanvasNode.

Definition createElement (tag : string) : Element := mkElement tag "" "".

Section Page.
Context {wasm_pkg : RustUs}.

(** Calls into the package, in the order they are made. *)
Inductive WasmCall : Type :=
| CallMakeGame (returned : GameHandle)
| CallDraw (g : GameHandle) (u d l r : bool).

Record Page : Type := mkPage {
  wasm : Wasm;
  curInput : InputState;
  listeners : list (string * Listener);
  output : Element;
  canvas : Element;
  body : list NodeRef;
  game : GameHandle;
  frame_requests : list Callback;
  wasm_calls : list WasmCall
}.

(** *** A state monad over the page *)

Definition M (A : Type) : Type := Page -> A * Page.

Definition ret {A : Type} (a : A) : M A := fun p => (a, p).

Definition bind {A B : Type} (m : M A) (k : A -> M B) : M B :=
  fun p => let (a, p') := m p in k a p'.

Definition exec {A : Type} (m : M A) (p : Page) : Page := snd (m p).

Notation "x <- m ;; k" := (bind m (fun x => k))
  (at level 61, m at next level, right associativity).
Notation "m ;; k" := (bind m (fun _ => k))
  (at level 61, right associativity).

(** Reading and updating the record [curInput] refers to. *)
Definition read_curInput : M InputState := fun p => (curInput p, p).

Definition update_curInput (f : InputState -> InputState) : M unit :=
  fun p =>
    (tt, mkPage (wasm p) (f (curInput p)) (listeners p) (output p) (canvas p)
                (body p) (game p) (frame_requests p) (wasm_calls p)).

(** [game.draw(u, d, l, r)]. *)
Definition game_draw (u d l r : bool) : M JsValue :=
  fun p =>
    let (result, w) := draw (game p) u d l r (wasm p) in
    (result, mkPage w (curInput p) (listeners p) (output p) (canvas p)
                    (body p) (game p) (frame_requests p)
                    (wasm_calls p ++ [CallDraw (game p) u d l r])).

(** [output.innerText = text]. *)
Definition set_output_innerText (text : string) : M unit :=
  fun p =>
    (tt, mkPage (wasm p) (curInput p) (listeners p)
                (mkElement (tagName (output p)) (id (output p)) text)
                (canvas p) (body p) (game p) (frame_requests p) (wasm_calls p)).

(** [requestAnimationFrame(cb)]: the callback joins the list the browser runs
    at the next frame. *)
Definition requestAnimationFrame (cb : Callback) : M unit :=
  fun p =>
    (tt, mkPage (wasm p) (curInput p) (listeners p) (output p) (canvas p)
                (body p) (game p) (frame_requests p ++ [cb]) (wasm_calls p)).

(** *** The render loop *)

Definition drawOneFrame : M unit :=
  ci <- read_curInput ;;
  result <- game_draw (up ci) (down ci) (left ci) (right ci) ;;
  (if loose_eq_null result
   then set_output_innerText "Failed to draw!"
   else set_output_innerText "All is well.") ;;
  requestAnimationFrame DrawOneFrame.

(** *** The script *)

(** The statements of the module, top to bottom, from a fresh document and
    the package in state [w]; the result is the page as the script leaves
    it. *)
Definition main (w : Wasm) : Page :=
  let curInput := mkInputState false false false false in
  let listeners := [] ++ [("keydown", KeydownListener)] in
  let listeners := listeners ++ [("keyup", KeyupListener)] in
  let output := createElement "div" in
  let body := [] ++ [OutputNode] in
  let canvas := createElement "canvas" in
  let canvas := mkElement (tagName canvas) "canvas" (innerText canvas) in
  let body := body ++ [CanvasNode] in
  let (game, w') := make_game w in
  exec (requestAnimationFrame DrawOneFrame)
       (mkPage w' curInput listeners output canvas body game []
               [CallMakeGame game]).

(** *** The browser *)

Definition run_listener (l : Listener) (ev : KeyboardEvent) : M unit :=
  match l with
  | KeydownListener => update_curInput (keydown_handler ev)
  | KeyupListener => update_curInput (keyup_handler ev)
  end.

(** Dispatch of an event of type [type] on the document: the listeners
    registered for that type run in registration order. *)
Fixpoint dispatchEvent (ls : list (string * Listener)) (type : string)
  (ev : KeyboardEvent) : M unit :=
  match ls with
  | [] => ret tt
  | (t, l) :: ls' =>
      (if String.eqb t type then run_listener l ev else ret tt) ;;
      dispatchEvent ls' type ev
  end.

Definition run_callback (cb : Callback) : M unit :=
  match cb with
  | DrawOneFrame => drawOneFrame
  end.

Fixpoint run_callbacks (cbs : list Callback) : M unit :=
  match cbs with
  | [] => ret tt
  | cb :: cbs' => run_callback cb ;; run_callbacks cbs'
  end.

(** One animation frame: the browser takes the list of requested callbacks,
    empties it, and runs them; a request made by a callback waits for the
    next frame. *)
Definition animation_frame : M unit :=
  fun p =>
    run_callbacks (frame_requests p)
      (mkPage (wasm p) (curInput p) (listeners p) (output p) (canvas p)
              (body p) (game p) [] (wasm_calls p)).

(** What the browser does to the page once the script has run. *)
Inductive HostEvent : Type :=
| Dispatch (type : string) (ev : KeyboardEvent)
| AnimationFrame.

Definition step (e : HostEvent) (p : Page) : Page :=
  match e with
  | Dispatch type ev => exec (dispatchEvent (listeners p) type ev) p
  | AnimationFrame => exec animation_frame p
  end.

Definition run (evs : list HostEvent) (p : Page) : Page :=
  fold_left (fun q e => step e q) evs p.

(** *** Observations *)

(** What [game.draw] gives when [drawOneFrame] runs on [p]. *)
Definition draw_outcome (p : Page) : JsValue * Wasm :=
  draw (game p) (up (curInput p)) (down (curInput p)) (left (curInput p))
       (right (curInput p)) (wasm p).

Definition draw_result (p : Page) : JsValue := fst (draw_outcome p).

(** The text of the status line. *)
Definition status_text (p : Page) : string := innerText (output p).

Definition is_make_game (c : WasmCall) : bool :=
  match c with CallMakeGame _ => true | CallDraw _ _ _ _ _ => false end.

Definition is_draw (c : WasmCall) : bool :=
  match c with CallDraw _ _ _ _ _ => true | CallMakeGame _ => false end.

Definition is_frame (e : HostEvent) : bool :=
  match e with AnimationFrame => true | Dispatch _ _ => false end.

(** The call [drawOneFrame] makes when the input record is [ci]. *)
Definition draw_call (g : GameHandle) (ci : InputState) : WasmCall :=
  CallDraw g (up ci) (down ci) (left ci) (right ci).

(** The effect on the input record of an event of type [type], with the two
    listeners of the script registered. *)
Definition handle_key (type : string) (ev : KeyboardEvent) (ci : InputState)
  : InputState :=
  if String.eqb "keydown" type then keydown_handler ev ci
  else if String.eqb "keyup" type then keyup_handler ev ci
  else ci.

(** The input record after the events [evs], and its value at each of their
    animation frames. *)
Fixpoint input_after (evs : list HostEvent) (ci : InputState) : InputState :=
  match evs with
  | [] => ci
  | Dispatch type ev :: evs' => input_after evs' (handle_key type ev ci)
  | AnimationFrame :: evs' => input_after evs' ci
  end.

Fixpoint inputs_at_frames (evs : list HostEvent) (ci : InputState)
  : list InputState :=
  match evs with
  | [] => []
  | Dispatch type ev :: evs' => inputs_at_frames evs' (handle_key type ev ci)
  | AnimationFrame :: evs' => ci :: inputs_at_frames evs' ci
  end.

(** Events no listener of the script is registered for. *)
Definition no_key_event (e : HostEvent) : bool :=
  match e with
  | AnimationFrame => true
  | Dispatch type _ =>
      negb (String.eqb "keydown" type) && negb (String.eqb "keyup" type)
  end.

(** The status line of a frame read with [null] as the only failure value:
    any other result of [game.draw] reports success. *)
Definition status_by_null_alone (p : Page) : Prop :=
  (draw_result p <> JsNull ->
   status_text (exec drawOneFrame p) = "All is well.")
  /\ (draw_result p = JsNull ->
      status_text (exec drawOneFrame p) = "Failed to draw!").

(** The page as the script leaves it and as every later event keeps it: the
    two listeners registered, one callback requested. *)
Definition settled (p : Page) : Prop :=
  listeners p = [("keydown", KeydownListener); ("keyup", KeyupListener)]
  /\ frame_requests p = [DrawOneFrame].

End Page.

(** ** Packages to run the page on *)

(** A game whose [draw] returns [v] at every call; the state of the instance
    counts the calls, the handle is a number. *)
Definition constant_game (v : JsValue) : RustUs := {|
  Wasm := nat;
  GameHandle := nat;
  make_game := fun w => (7, w);
  draw := fun _ _ _ _ _ w => (v, S w)
|}.

(** The page the script leaves with that game, from the instance's state 0. *)
Definition loaded (v : JsValue) : @Page (constant_game v) :=
  @main (constant_game v) 0.

Definition key_event (name : string) : KeyboardEvent :=
  mkKeyboardEvent (JsString name).

(** ** Histories of events *)

(** Events that are not animation frames. *)
Definition no_frame (evs : list HostEvent) : bool :=
  forallb (fun e => negb (is_frame e)) evs.

(** The labels of the two [switch] statements and the field each assigns. *)
Definition arrow_fields : list (string * (InputState -> bool)) :=
  [("ArrowUp", up); ("ArrowDown", down); ("ArrowLeft", left);
   ("ArrowRight", right)].

(** A key event that reaches the label [name] of one of the listeners. *)
Definition touches (name : string) (e : HostEvent) : bool :=
  match e with
  | Dispatch type ev =>
      (String.eqb "keydown" type || String.eqb "keyup" type)
      && (key ev === name)
  | AnimationFrame => false
  end.

(** Fieldwise order on input records, and the number of fields in which two
    records differ. *)
Definition input_le (a b : InputState) : bool :=
  implb (up a) (up b) && implb (down a) (down b)
  && implb (left a) (left b) && implb (right a) (right b).

Definition changed_fields (a b : InputState) : nat :=
  (if Bool.eqb (up a) (up b) then 0 else 1)
  + (if Bool.eqb (down a) (down b) then 0 else 1)
  + (if Bool.eqb (left a) (left b) then 0 else 1)
  + (if Bool.eqb (right a) (right b) then 0 else 1).

(** Key-down events for the arrows whose flag is set in [ci]. *)
Definition presses (ci : InputState) : list HostEvent :=
  (if up ci then [Dispatch "keydown" (key_event "ArrowUp")] else [])
  ++ (if down ci then [Dispatch "keydown" (key_event "ArrowDown")] else [])
  ++ (if left ci then [Dispatch "keydown" (key_event "ArrowLeft")] else [])
  ++ (if right ci then [Dispatch "keydown" (key_event "ArrowRight")] else []).

(** The state of the instance after draws on [g] with the records [cis], in
    order. *)
Definition wasm_after {wasm_pkg : RustUs} (g : GameHandle)
  (cis : list InputState) (w : Wasm) : Wasm :=
  fold_left
    (fun w' ci => snd (draw g (up ci) (down ci) (left ci) (right ci) w'))
    cis w.

(** ** Properties *)

Section Properties.
Context {wasm_pkg : RustUs}.

Lemma exec_drawOneFrame (p : Page) :
  exec drawOneFrame p =
  mkPage (snd (draw_outcome p)) (curInput p) (listeners p)
         (mkElement (tagName (output p)) (id (output p))
                    (if loose_eq_null (draw_result p)
                     then "Failed to draw!" else "All is well."))
         (canvas p) (body p) (game p)
         (frame_requests p ++ [DrawOneFrame])
         (wasm_calls p ++ [draw_call (game p) (curInput p)]).
Proof.
  unfold exec, drawOneFrame, bind, read_curInput, game_draw, draw_result,
    draw_outcome, draw_call.
  destruct (draw _ _ _ _ _ _) as [result w]; simpl.
  destruct (loose_eq_null result); reflexivity.
Qed.

Lemma exec_then_ret (m : M unit) (p : Page) :
  exec (bind m (fun _ => ret tt)) p = exec m p.
Proof.
  unfold exec, bind, ret. destruct (m p) as [a q]. reflexivity.
Qed.

(** A key event changes the input record and nothing else. *)
Lemma step_dispatch (type : string) (ev : KeyboardEvent) (p : Page) :
  listeners p = [("keydown", KeydownListener); ("keyup", KeyupListener)] ->
  step (Dispatch type ev) p = exec (update_curInput (handle_key type ev)) p.
Proof.
  intros Hl. unfold step. rewrite Hl. unfold handle_key.
  cbn [dispatchEvent].
  destruct (String.eqb "keydown" type) eqn:Hd.
  - apply String.eqb_eq in Hd. subst type. reflexivity.
  - destruct (String.eqb "keyup" type); destruct p; reflexivity.
Qed.

(** An animation frame of a settled page runs [drawOneFrame] once. *)
Lemma step_frame (p : Page) :
  frame_requests p = [DrawOneFrame] ->
  step AnimationFrame p =
  mkPage (snd (draw_outcome p)) (curInput p) (listeners p)
         (mkElement (tagName (output p)) (id (output p))
                    (if loose_eq_null (draw_result p)
                     then "Failed to draw!" else "All is well."))
         (canvas p) (body p) (game p) [DrawOneFrame]
         (wasm_calls p ++ [draw_call (game p) (curInput p)]).
Proof.
  intros Hf. unfold step.
  change (exec animation_frame p)
    with (exec (run_callbacks (frame_requests p))
            (mkPage (wasm p) (curInput p) (listeners p) (output p) (canvas p)
                    (body p) (game p) [] (wasm_calls p))).
  rewrite Hf. simpl run_callbacks.
  rewrite exec_then_ret, exec_drawOneFrame. reflexivity.
Qed.

Lemma step_settled (e : HostEvent) (p : Page) :
  settled p -> settled (step e p).
Proof.
  intros [Hl Hf]. destruct e as [type ev|].
  - rewrite step_dispatch by exact Hl. split; assumption.
  - rewrite step_frame by exact Hf. split; [exact Hl | reflexivity].
Qed.

Lemma main_unfold (w : Wasm) :
  main w =
  mkPage (snd (make_game w)) (mkInputState false false false false)
         [("keydown", KeydownListener); ("keyup", KeyupListener)]
         (mkElement "div" "" "") (mkElement "canvas" "canvas" "")
         [OutputNode; CanvasNode] (fst (make_game w)) [DrawOneFrame]
         [CallMakeGame (fst (make_game w))].
Proof.
  unfold main. destruct (make_game w) as [g w']. reflexivity.
Qed.

Lemma main_settled (w : Wasm) : settled (main w).
Proof. rewrite main_unfold. split; reflexivity. Qed.

Lemma run_snoc (evs : list HostEvent) (e : HostEvent) (p : Page) :
  run (evs ++ [e]) p = step e (run evs p).
Proof. unfold run. rewrite fold_left_app. reflexivity. Qed.

(** What a run of events keeps and what it adds, from a settled page. *)
Lemma run_from_settled (evs : list HostEvent) :
  forall p : Page,
    settled p ->
    settled (run evs p)
    /\ game (run evs p) = game p
    /\ curInput (run evs p) = input_after evs (curInput p)
    /\ wasm_calls (run evs p) =
       wasm_calls p ++ map (draw_call (game p)) (inputs_at_frames evs (curInput p)).
Proof.
  induction evs as [|e evs IH]; intros p Hp.
  - simpl. rewrite app_nil_r. repeat split; try apply Hp.
  - change (run (e :: evs) p) with (run evs (step e p)).
    destruct (IH (step e p) (step_settled e p Hp)) as (Hs & Hg & Hc & Hw).
    split; [exact Hs|]. rewrite Hg, Hc, Hw.
    destruct Hp as [Hl Hf]. destruct e as [type ev|].
    + rewrite step_dispatch by exact Hl. repeat split; reflexivity.
    + rewrite step_frame by exact Hf. simpl. rewrite <- app_assoc.
      repeat split; reflexivity.
Qed.

Lemma status_text_drawOneFrame (p : Page) :
  status_text (exec drawOneFrame p) =
  if loose_eq_null (draw_result p) then "Failed to draw!" else "All is well.".
Proof. rewrite exec_drawOneFrame. reflexivity. Qed.

Lemma loose_eq_null_false (v : JsValue) :
  v <> JsNull ->
  v <> JsUndefined ->
  (forall ref : nat, v <> JsObject ref true) ->
  loose_eq_null v = false.
Proof.
  intros Hn Hu Hd. destruct v as [| | | | | | |ref [|]];
    try reflexivity; try congruence; elim (Hd ref); reflexivity.
Qed.

(** The values [== null] holds of. *)
Lemma loose_eq_null_true (v : JsValue) :
  loose_eq_null v = true <->
  v = JsNull \/ v = JsUndefined \/ exists ref : nat, v = JsObject ref true.
Proof.
  split.
  - destruct v as [| | | | | | |ref [|]]; try discriminate; intros _; eauto.
  - intros [->|[->|[ref ->]]]; reflexivity.
Qed.

(** C1 (amended): in every invocation of [drawOneFrame], a result of
    [game.draw] that is not loosely equal to null (neither null, nor
    undefined, nor an object with the [[IsHTMLDDA]] slot) sets the status
    text to "All is well.", and the result null sets it to
    "Failed to draw!". *)
Theorem frame_status_text (p : Page) :
  (draw_result p <> JsNull
   /\ draw_result p <> JsUndefined
   /\ (forall ref : nat, draw_result p <> JsObject ref true) ->
   status_text (exec drawOneFrame p) = "All is well.")
  /\ (draw_result p = JsNull ->
      status_text (exec drawOneFrame p) = "Failed to draw!").
Proof.
  rewrite status_text_drawOneFrame. split.
  - intros (Hn & Hu & Hd). rewrite (loose_eq_null_false _ Hn Hu Hd).
    reflexivity.
  - intros ->. reflexivity.
Qed.

(** C9: a frame whose [game.draw] returns undefined takes the failure branch
    like one whose draw returns null: either nullish result sets the status
    text to "Failed to draw!". *)
Theorem nullish_result_fails (p : Page) :
  draw_result p = JsUndefined \/ draw_result p = JsNull ->
  status_text (exec drawOneFrame p) = "Failed to draw!".
Proof.
  rewrite status_text_drawOneFrame. intros [-> | ->]; reflexivity.
Qed.

(** C6: every invocation of [drawOneFrame] makes one call of the package,
    [draw] on the page's game with the fields of the current input record in
    the order up, down, left, right, and leaves the instance in the state
    that call produced. *)
Theorem frame_calls_draw_once (p : Page) :
  wasm_calls (exec drawOneFrame p) =
    wasm_calls p ++
    [CallDraw (game p) (up (curInput p)) (down (curInput p))
              (left (curInput p)) (right (curInput p))]
  /\ wasm (exec drawOneFrame p) =
     snd (draw (game p) (up (curInput p)) (down (curInput p))
               (left (curInput p)) (right (curInput p)) (wasm p)).
Proof. rewrite exec_drawOneFrame. split; reflexivity. Qed.

(** *** The key listeners *)

Lemma strict_eq_string_false (v : JsValue) (lit : string) :
  v <> JsString lit -> (v === lit) = false.
Proof.
  intros Hv. destruct v; try reflexivity. simpl.
  apply String.eqb_neq. congruence.
Qed.

Lemma exec_update_curInput_fixed (f : InputState -> InputState) (p : Page) :
  f (curInput p) = curInput p -> exec (update_curInput f) p = p.
Proof.
  intros Hf. unfold exec, update_curInput. simpl. rewrite Hf.
  destruct p; reflexivity.
Qed.

Lemma run_main_settled (w : Wasm) (evs : list HostEvent) :
  settled (run evs (main w)).
Proof. apply run_from_settled, main_settled. Qed.

(** The listeners the script registers are the two handlers. *)
Lemma curInput_step_dispatch (w : Wasm) (evs : list HostEvent)
  (type : string) (ev : KeyboardEvent) :
  curInput (step (Dispatch type ev) (run evs (main w))) =
  handle_key type ev (curInput (run evs (main w))).
Proof.
  rewrite step_dispatch by apply run_main_settled. reflexivity.
Qed.

(** C2: a key-down event for an arrow key sets the field of that arrow to
    true and keeps the other three fields, from any input record; and the
    document's key-down events reach the page's record through this
    handler. *)
Theorem keydown_sets_arrow_field :
  (forall ci : InputState,
     keydown_handler (key_event "ArrowUp") ci =
       mkInputState true (down ci) (left ci) (right ci)
     /\ keydown_handler (key_event "ArrowDown") ci =
       mkInputState (up ci) true (left ci) (right ci)
     /\ keydown_handler (key_event "ArrowLeft") ci =
       mkInputState (up ci) (down ci) true (right ci)
     /\ keydown_handler (key_event "ArrowRight") ci =
       mkInputState (up ci) (down ci) (left ci) true)
  /\ (forall (w : Wasm) (evs : list HostEvent) (ev : KeyboardEvent),
        curInput (step (Dispatch "keydown" ev) (run evs (main w))) =
        keydown_handler ev (curInput (run evs (main w)))).
Proof.
  split.
  - intros ci. repeat split; reflexivity.
  - intros w evs ev. apply curInput_step_dispatch.
Qed.

(** C3: a key-up event for an arrow key sets the field of that arrow to
    false, whatever it was, and keeps the other three fields; and the
    document's key-up events reach the page's record through this handler. *)
Theorem keyup_clears_arrow_field :
  (forall ci : InputState,
     keyup_handler (key_event "ArrowUp") ci =
       mkInputState false (down ci) (left ci) (right ci)
     /\ keyup_handler (key_event "ArrowDown") ci =
       mkInputState (up ci) false (left ci) (right ci)
     /\ keyup_handler (key_event "ArrowLeft") ci =
       mkInputState (up ci) (down ci) false (right ci)
     /\ keyup_handler (key_event "ArrowRight") ci =
       mkInputState (up ci) (down ci) (left ci) false)
  /\ (forall (w : Wasm) (evs : list HostEvent) (ev : KeyboardEvent),
        curInput (step (Dispatch "keyup" ev) (run evs (main w))) =
        keyup_handler ev (curInput (run evs (main w)))).
Proof.
  split.
  - intros ci. repeat split; reflexivity.
  - intros w evs ev. apply curInput_step_dispatch.
Qed.

(** C4: for a key value that is none of the four arrow keys, the key-down
    and the key-up handler return the input record as it was, and the
    dispatch of either event leaves the whole page as it was; the handlers
    are total and have no error result. *)
Theorem other_keys_ignored (k : JsValue) :
  k <> JsString "ArrowUp" ->
  k <> JsString "ArrowDown" ->
  k <> JsString "ArrowLeft" ->
  k <> JsString "ArrowRight" ->
  (forall ci : InputState,
     keydown_handler (mkKeyboardEvent k) ci = ci
     /\ keyup_handler (mkKeyboardEvent k) ci = ci)
  /\ (forall (w : Wasm) (evs : list HostEvent),
        step (Dispatch "keydown" (mkKeyboardEvent k)) (run evs (main w)) =
          run evs (main w)
        /\ step (Dispatch "keyup" (mkKeyboardEvent k)) (run evs (main w)) =
          run evs (main w)).
Proof.
  intros Hu Hd Hl Hr.
  assert (Hk : forall ci : InputState,
             keydown_handler (mkKeyboardEvent k) ci = ci
             /\ keyup_handler (mkKeyboardEvent k) ci = ci).
  { intros ci. unfold keydown_handler, keyup_handler. simpl key.
    rewrite !strict_eq_string_false by assumption. split; reflexivity. }
  split; [exact Hk|].
  intros w evs.
  split; rewrite step_dispatch by apply run_main_settled;
    apply exec_update_curInput_fixed; apply Hk.
Qed.

Lemma handle_key_idempotent (type : string) (ev : KeyboardEvent)
  (ci : InputState) :
  keydown_handler ev (keydown_handler ev ci) = keydown_handler ev ci ->
  keyup_handler ev (keyup_handler ev ci) = keyup_handler ev ci ->
  handle_key type ev (handle_key type ev ci) = handle_key type ev ci.
Proof.
  intros Hd Hu. unfold handle_key.
  destruct (String.eqb "keydown" type); [exact Hd|].
  destruct (String.eqb "keyup" type); [exact Hu | reflexivity].
Qed.

(** C10: for every key value and every input record, handling the same
    key-down event twice gives the record that handling it once gives, and
    likewise for key-up; so the dispatch of an event twice in a row leaves
    the page as its first dispatch does. *)
Theorem key_handlers_idempotent :
  (forall (ev : KeyboardEvent) (ci : InputState),
     keydown_handler ev (keydown_handler ev ci) = keydown_handler ev ci
     /\ keyup_handler ev (keyup_handler ev ci) = keyup_handler ev ci)
  /\ (forall (w : Wasm) (evs : list HostEvent) (type : string)
             (ev : KeyboardEvent),
        step (Dispatch type ev) (step (Dispatch type ev) (run evs (main w))) =
        step (Dispatch type ev) (run evs (main w))).
Proof.
  assert (Hh : forall (ev : KeyboardEvent) (ci : InputState),
             keydown_handler ev (keydown_handler ev ci) = keydown_handler ev ci
             /\ keyup_handler ev (keyup_handler ev ci) = keyup_handler ev ci).
  { intros ev ci. unfold keydown_handler, keyup_handler.
    destruct (key ev === "ArrowUp"); [split; reflexivity|].
    destruct (key ev === "ArrowDown"); [split; reflexivity|].
    destruct (key ev === "ArrowLeft"); [split; reflexivity|].
    destruct (key ev === "ArrowRight"); split; reflexivity. }
  split; [exact Hh|].
  intros w evs type ev.
  pose proof (run_main_settled w evs) as Hs.
  rewrite (step_dispatch type ev (step (Dispatch type ev) (run evs (main w))))
    by apply (step_settled _ _ Hs).
  rewrite step_dispatch by apply Hs.
  unfold exec, update_curInput. simpl.
  rewrite handle_key_idempotent by apply Hh. reflexivity.
Qed.

(** *** The page over time *)

Lemma length_inputs_at_frames (evs : list HostEvent) :
  forall ci : InputState,
    length (inputs_at_frames evs ci) = length (filter is_frame evs).
Proof.
  induction evs as [|[type ev|] evs IH]; intros ci; simpl.
  - reflexivity.
  - apply IH.
  - f_equal. apply IH.
Qed.

Lemma filter_draw_calls (g : GameHandle) (cis : list InputState) :
  filter is_draw (map (draw_call g) cis) = map (draw_call g) cis
  /\ filter is_make_game (map (draw_call g) cis) = [].
Proof.
  induction cis as [|ci cis [IHd IHm]]; simpl.
  - split; reflexivity.
  - rewrite IHd, IHm. split; reflexivity.
Qed.

Lemma input_after_no_key_event (evs : list HostEvent) :
  forall ci : InputState,
    forallb no_key_event evs = true -> input_after evs ci = ci.
Proof.
  induction evs as [|[type ev|] evs IH]; intros ci Hevs;
    cbn [forallb no_key_event input_after] in *.
  - reflexivity.
  - apply andb_prop in Hevs. destruct Hevs as [He Hevs].
    apply andb_prop in He. destruct He as [Hd Hu].
    rewrite (IH _ Hevs). unfold handle_key.
    apply negb_true_iff in Hd, Hu. rewrite Hd, Hu. reflexivity.
  - apply IH, Hevs.
Qed.

(** The calls of the package and the input record after any events. *)
Lemma run_main (w : Wasm) (evs : list HostEvent) :
  game (run evs (main w)) = fst (make_game w)
  /\ curInput (run evs (main w)) =
     input_after evs (mkInputState false false false false)
  /\ wasm_calls (run evs (main w)) =
     CallMakeGame (fst (make_game w))
     :: map (draw_call (fst (make_game w)))
            (inputs_at_frames evs (mkInputState false false false false)).
Proof.
  destruct (run_from_settled evs (main w) (main_settled w))
    as (_ & Hg & Hc & Hw).
  rewrite Hg, Hc, Hw, main_unfold. repeat split; reflexivity.
Qed.

(** C5: every invocation of [drawOneFrame] adds one request for itself to
    the animation-frame list, whatever [game.draw] returned; so after the
    script and any events the list holds that one request, and the draws
    made are as many as the animation frames that came: every frame, however
    late, runs the callback once more. *)
Theorem frame_requests_next_frame :
  (forall p : Page,
     frame_requests (exec drawOneFrame p) = frame_requests p ++ [DrawOneFrame])
  /\ (forall (w : Wasm) (evs : list HostEvent),
        frame_requests (run evs (main w)) = [DrawOneFrame])
  /\ (forall (w : Wasm) (evs : list HostEvent),
        length (filter is_draw (wasm_calls (run evs (main w)))) =
        length (filter is_frame evs)).
Proof.
  repeat split.
  - intros p. rewrite exec_drawOneFrame. reflexivity.
  - intros w evs. apply run_main_settled.
  - intros w evs. destruct (run_main w evs) as (_ & _ & ->). simpl.
    rewrite (proj1 (filter_draw_calls _ _)), length_map.
    apply length_inputs_at_frames.
Qed.

(** C7: the script leaves all four fields of the input record false, and
    they stay false through animation frames and events of other types,
    until a key event is handled. *)
Theorem curInput_initially_false (w : Wasm) :
  curInput (main w) = mkInputState false false false false
  /\ (forall evs : list HostEvent,
        forallb no_key_event evs = true ->
        curInput (run evs (main w)) = mkInputState false false false false).
Proof.
  split.
  - rewrite main_unfold. reflexivity.
  - intros evs Hevs. destruct (run_main w evs) as (_ & -> & _).
    apply input_after_no_key_event, Hevs.
Qed.

(** C8: after the script and any events, the page's game is the handle the
    one call of [make_game] returned; that call is the first call of the
    package and the only one of its kind, and every later call is a [draw] on
    that handle with the input record of its frame; the page's one input
    record is the initial record with the events' key handlers applied in
    order, and it is the record the draws read. *)
Theorem one_game_one_input (w : Wasm) (evs : list HostEvent) :
  game (run evs (main w)) = fst (make_game w)
  /\ wasm_calls (run evs (main w)) =
     CallMakeGame (fst (make_game w))
     :: map (draw_call (fst (make_game w)))
            (inputs_at_frames evs (mkInputState false false false false))
  /\ length (filter is_make_game (wasm_calls (run evs (main w)))) = 1
  /\ curInput (run evs (main w)) =
     input_after evs (mkInputState false false false false).
Proof.
  destruct (run_main w evs) as (Hg & Hc & Hw).
  repeat split; try assumption.
  rewrite Hw. simpl. rewrite (proj2 (filter_draw_calls _ _)). reflexivity.
Qed.

End Properties.

(** ** The page on concrete packages *)

(** Up pressed, a frame, up released and right pressed, a frame: the two
    draws carry the flags as they stood at their frame. *)
Example two_frames_calls :
  wasm_calls
    (run [Dispatch "keydown" (key_event "ArrowUp"); AnimationFrame;
          Dispatch "keyup" (key_event "ArrowUp");
          Dispatch "keydown" (key_event "ArrowRight"); AnimationFrame]
         (loaded (JsObject 1 false))) =
  [@CallMakeGame (constant_game (JsObject 1 false)) 7;
   @CallDraw (constant_game (JsObject 1 false)) 7 true false false false;
   @CallDraw (constant_game (JsObject 1 false)) 7 false false false true].
Proof. reflexivity. Qed.

Example two_frames_page :
  run [AnimationFrame; Dispatch "keydown" (key_event "ArrowLeft");
       AnimationFrame] (loaded JsNull) =
  @mkPage (constant_game JsNull)
          2 (mkInputState false false true false)
          [("keydown", KeydownListener); ("keyup", KeyupListener)]
          (mkElement "div" "" "Failed to draw!")
          (mkElement "canvas" "canvas" "")
          [OutputNode; CanvasNode] 7 [DrawOneFrame]
          [@CallMakeGame (constant_game JsNull) 7;
           @CallDraw (constant_game JsNull) 7 false false false false;
           @CallDraw (constant_game JsNull) 7 false false true false].
Proof. reflexivity. Qed.

(** A draw that returns an object with the [[IsHTMLDDA]] slot fails like one
    that returns null, and one that returns any other object succeeds. *)
Example frame_status_of_objects :
  status_text (exec drawOneFrame (loaded (JsObject 1 true))) =
    "Failed to draw!"
  /\ status_text (exec drawOneFrame (loaded (JsObject 1 false))) =
     "All is well.".
Proof. split; reflexivity. Qed.

(** C1, as stated, fails on a draw that returns undefined: the result is not
    null, and the status text is the failure text. *)
Lemma status_by_null_alone_fails :
  ~ status_by_null_alone (loaded JsUndefined).
Proof.
  intros [Hsuccess _].
  assert (Hnot_null : draw_result (loaded JsUndefined) <> JsNull)
    by discriminate.
  specialize (Hsuccess Hnot_null). discriminate Hsuccess.
Qed.

Lemma frame_status_text_witness :
  ((draw_result (loaded (JsObject 1 false)) <> JsNull
    /\ draw_result (loaded (JsObject 1 false)) <> JsUndefined
    /\ (forall ref : nat,
          draw_result (loaded (JsObject 1 false)) <> JsObject ref true))
   /\ status_text (exec drawOneFrame (loaded (JsObject 1 false))) =
      "All is well.")
  /\ (draw_result (loaded JsNull) = JsNull
      /\ status_text (exec drawOneFrame (loaded JsNull)) =
         "Failed to draw!").
Proof.
  split; split.
  - split; [discriminate | split; [discriminate | intros ref; discriminate]].
  - apply (proj1 (frame_status_text (loaded (JsObject 1 false)))).
    split; [discriminate | split; [discriminate | intros ref; discriminate]].
  - reflexivity.
  - apply (proj2 (frame_status_text (loaded JsNull))).
    reflexivity.
Defined.

Lemma nullish_result_fails_witness :
  (draw_result (loaded JsUndefined) = JsUndefined
   \/ draw_result (loaded JsUndefined) = JsNull)
  /\ status_text (exec drawOneFrame (loaded JsUndefined)) =
     "Failed to draw!".
Proof.
  split.
  - left. reflexivity.
  - apply (nullish_result_fails (loaded JsUndefined)).
    left. reflexivity.
Defined.

Lemma other_keys_ignored_witness :
  (JsString "Enter" <> JsString "ArrowUp"
   /\ JsString "Enter" <> JsString "ArrowDown"
   /\ JsString "Enter" <> JsString "ArrowLeft"
   /\ JsString "Enter" <> JsString "ArrowRight")
  /\ (forall ci : InputState,
        keydown_handler (key_event "Enter") ci = ci
        /\ keyup_handler (key_event "Enter") ci = ci)
  /\ (forall (w : @Wasm (constant_game JsNull)) (evs : list HostEvent),
        step (Dispatch "keydown" (key_event "Enter")) (run evs (main w)) =
          run evs (main w)
        /\ step (Dispatch "keyup" (key_event "Enter")) (run evs (main w)) =
          run evs (main w)).
Proof.
  split.
  - repeat split; discriminate.
  - apply (@other_keys_ignored (constant_game JsNull) (JsString "Enter"));
      discriminate.
Defined.

Lemma curInput_initially_false_witness :
  forallb no_key_event
    [AnimationFrame; Dispatch "click" (mkKeyboardEvent JsUndefined);
     AnimationFrame] = true
  /\ curInput
       (run [AnimationFrame; Dispatch "click" (mkKeyboardEvent JsUndefined);
             AnimationFrame] (loaded JsNull)) =
     mkInputState false false false false.
Proof.
  split.
  - reflexivity.
  - apply (proj2 (@curInput_initially_false (constant_game JsNull) 0)).
    reflexivity.
Defined.

(** ** The rest of the script: the document, the key state, the frames *)

Section Coverage.
Context {wasm_pkg : RustUs}.

Lemma run_app (evs1 evs2 : list HostEvent) (p : Page) :
  run (evs1 ++ evs2) p = run evs2 (run evs1 p).
Proof. unfold run. apply fold_left_app. Qed.

Lemma step_dispatch_page (type : string) (ev : KeyboardEvent) (p : Page) :
  settled p ->
  step (Dispatch type ev) p =
  mkPage (wasm p) (handle_key type ev (curInput p)) (listeners p) (output p)
         (canvas p) (body p) (game p) (frame_requests p) (wasm_calls p).
Proof. intros [Hl _]. rewrite step_dispatch by exact Hl. reflexivity. Qed.

(** Events without a frame replace the input record and nothing else. *)
Lemma run_no_frame (ks : list HostEvent) :
  forall p : Page,
    settled p ->
    no_frame ks = true ->
    run ks p =
    mkPage (wasm p) (input_after ks (curInput p)) (listeners p) (output p)
           (canvas p) (body p) (game p) (frame_requests p) (wasm_calls p).
Proof.
  induction ks as [|[type ev|] ks IH]; intros p Hp Hks.
  - destruct p; reflexivity.
  - change (run (Dispatch type ev :: ks) p)
      with (run ks (step (Dispatch type ev) p)).
    rewrite IH; [| apply step_settled, Hp | exact Hks].
    rewrite step_dispatch_page by exact Hp. reflexivity.
  - discriminate Hks.
Qed.

Lemma run_keeps_document (evs : list HostEvent) :
  forall p : Page,
    settled p ->
    body (run evs p) = body p
    /\ canvas (run evs p) = canvas p
    /\ tagName (output (run evs p)) = tagName (output p)
    /\ id (output (run evs p)) = id (output p).
Proof.
  induction evs as [|e evs IH]; intros p Hp.
  - repeat split; reflexivity.
  - change (run (e :: evs) p) with (run evs (step e p)).
    destruct (IH (step e p) (step_settled e p Hp)) as (Hb & Hc & Ht & Hi).
    rewrite Hb, Hc, Ht, Hi. destruct e as [type ev|].
    + rewrite step_dispatch_page by exact Hp. repeat split; reflexivity.
    + rewrite step_frame by apply Hp. repeat split; reflexivity.
Qed.

Lemma run_wasm (evs : list HostEvent) :
  forall p : Page,
    settled p ->
    wasm (run evs p) =
    wasm_after (game p) (inputs_at_frames evs (curInput p)) (wasm p).
Proof.
  induction evs as [|e evs IH]; intros p Hp.
  - reflexivity.
  - change (run (e :: evs) p) with (run evs (step e p)).
    rewrite (IH (step e p) (step_settled e p Hp)). destruct e as [type ev|].
    + rewrite step_dispatch_page by exact Hp. reflexivity.
    + rewrite step_frame by apply Hp. reflexivity.
Qed.

(** *** The document *)

(** X1: after the script and any events the body holds the status element
    and the canvas, in that order; the canvas is a [canvas] element with id
    "canvas" and no text; the status element is a [div] without id; and the
    two listeners of the script are the only ones registered. *)
Theorem document_kept (w : Wasm) (evs : list HostEvent) :
  body (run evs (main w)) = [OutputNode; CanvasNode]
  /\ canvas (run evs (main w)) = mkElement "canvas" "canvas" ""
  /\ tagName (output (run evs (main w))) = "div"
  /\ id (output (run evs (main w))) = ""
  /\ listeners (run evs (main w)) =
     [("keydown", KeydownListener); ("keyup", KeyupListener)].
Proof.
  destruct (run_keeps_document evs (main w) (main_settled w))
    as (Hb & Hc & Ht & Hi).
  rewrite Hb, Hc, Ht, Hi.
  rewrite (proj1 (run_main_settled w evs)), main_unfold.
  repeat split; reflexivity.
Qed.

(** X2: the script itself draws nothing: until the first animation frame,
    whatever key events come, the status text is empty, the only call of the
    package is [make_game], and the instance is in the state that call
    left. *)
Theorem nothing_drawn_before_first_frame (w : Wasm) (ks : list HostEvent) :
  no_frame ks = true ->
  status_text (run ks (main w)) = ""
  /\ wasm_calls (run ks (main w)) = [CallMakeGame (fst (make_game w))]
  /\ wasm (run ks (main w)) = snd (make_game w).
Proof.
  intros Hks. rewrite (run_no_frame ks (main w) (main_settled w) Hks).
  rewrite main_unfold. repeat split; reflexivity.
Qed.

(** X3: the status text is that of the last frame: after a frame and any
    key events that follow it, the text is "Failed to draw!" when the draw
    of that frame returned a value loosely equal to null (null, undefined,
    or an object with the [[IsHTMLDDA]] slot) and "All is well." otherwise,
    whatever earlier frames wrote. *)
Theorem status_text_of_last_frame (w : Wasm) (evs ks : list HostEvent) :
  no_frame ks = true ->
  status_text (run (evs ++ AnimationFrame :: ks) (main w)) =
  if loose_eq_null (draw_result (run evs (main w)))
  then "Failed to draw!" else "All is well.".
Proof.
  intros Hks. rewrite run_app.
  change (run (AnimationFrame :: ks) (run evs (main w)))
    with (run ks (step AnimationFrame (run evs (main w)))).
  pose proof (run_main_settled w evs) as Hp.
  rewrite (run_no_frame ks _ (step_settled AnimationFrame _ Hp) Hks).
  rewrite step_frame by apply Hp. reflexivity.
Qed.

(** *** Key events on the page *)

(** X4: the dispatch of an event of any type changes nothing of the page
    but the input record: no call of the package, no write of the status
    element, no request of a frame, no listener added. *)
Theorem key_events_change_only_input (w : Wasm) (evs : list HostEvent)
  (type : string) (ev : KeyboardEvent) :
  step (Dispatch type ev) (run evs (main w)) =
  mkPage (wasm (run evs (main w)))
         (handle_key type ev (curInput (run evs (main w))))
         (listeners (run evs (main w))) (output (run evs (main w)))
         (canvas (run evs (main w))) (body (run evs (main w)))
         (game (run evs (main w))) (frame_requests (run evs (main w)))
         (wasm_calls (run evs (main w))).
Proof. apply step_dispatch_page, run_main_settled. Qed.

(** X5: an event whose type is neither "keydown" nor "keyup" leaves the page
    as it was, whatever its key. *)
Theorem other_event_types_ignored (w : Wasm) (evs : list HostEvent)
  (type : string) (ev : KeyboardEvent) :
  type <> "keydown" ->
  type <> "keyup" ->
  step (Dispatch type ev) (run evs (main w)) = run evs (main w).
Proof.
  intros Hd Hu. rewrite step_dispatch by apply run_main_settled.
  apply exec_update_curInput_fixed. unfold handle_key.
  destruct (String.eqb "keydown" type) eqn:Ed.
  - apply String.eqb_eq in Ed. congruence.
  - destruct (String.eqb "keyup" type) eqn:Eu; [|reflexivity].
    apply String.eqb_eq in Eu. congruence.
Qed.

(** *** Frames *)

(** X6: the instance's state is threaded through the draws and touched by
    nothing else: after any events it is the state [make_game] left, passed
    through one draw per frame with the input record of that frame. *)
Theorem wasm_state_threaded (w : Wasm) (evs : list HostEvent) :
  wasm (run evs (main w)) =
  wasm_after (fst (make_game w))
             (inputs_at_frames evs (mkInputState false false false false))
             (snd (make_game w)).
Proof.
  rewrite (run_wasm evs (main w) (main_settled w)), main_unfold. reflexivity.
Qed.

Lemma inputs_at_repeated_frames (n : nat) (ci : InputState) :
  inputs_at_frames (repeat AnimationFrame n) ci = repeat ci n
  /\ input_after (repeat AnimationFrame n) ci = ci.
Proof.
  induction n as [|n [IHf IHa]]; simpl.
  - split; reflexivity.
  - rewrite IHf, IHa. split; reflexivity.
Qed.

(** X7: a frame reads the input record and leaves it: with no key event in
    between, [n] frames make [n] draws with the same four flags, and the
    record is afterwards what it was. *)
Theorem held_input_repeats (w : Wasm) (evs : list HostEvent) (n : nat) :
  wasm_calls (run (evs ++ repeat AnimationFrame n) (main w)) =
    wasm_calls (run evs (main w))
    ++ repeat (draw_call (fst (make_game w)) (curInput (run evs (main w)))) n
  /\ curInput (run (evs ++ repeat AnimationFrame n) (main w)) =
     curInput (run evs (main w)).
Proof.
  rewrite run_app.
  destruct (run_from_settled (repeat AnimationFrame n) (run evs (main w))
              (run_main_settled w evs)) as (_ & _ & Hc & Hw).
  destruct (inputs_at_repeated_frames n (curInput (run evs (main w))))
    as [Hf Ha].
  rewrite Hc, Hw, Hf, Ha, map_repeat.
  destruct (run_main w evs) as (-> & _ & _). split; reflexivity.
Qed.

(** *** The two listeners together *)

(** The label of the [switch] that [ev.key] selects, if any. *)
Ltac label_cases ev :=
  destruct (key ev === "ArrowUp") eqn:?;
  [| destruct (key ev === "ArrowDown") eqn:?;
     [| destruct (key ev === "ArrowLeft") eqn:?;
        [| destruct (key ev === "ArrowRight") eqn:? ]]].

Lemma strict_eq_string_true (v : JsValue) (lit : string) :
  (v === lit) = true -> v = JsString lit.
Proof.
  destruct v; try discriminate. simpl. intros H.
  apply String.eqb_eq in H. congruence.
Qed.

Lemma keyup_undoes_keydown (ev : KeyboardEvent) (ci : InputState) :
  keyup_handler ev (keydown_handler ev ci) = keyup_handler ev ci.
Proof.
  unfold keyup_handler, keydown_handler. label_cases ev; reflexivity.
Qed.

(** X8: of a key-down and a key-up event for the same key, the later one
    decides: releasing after pressing gives what releasing alone gives, and
    pressing after releasing gives what pressing alone gives. *)
Theorem last_key_event_wins (ev : KeyboardEvent) (ci : InputState) :
  keyup_handler ev (keydown_handler ev ci) = keyup_handler ev ci
  /\ keydown_handler ev (keyup_handler ev ci) = keydown_handler ev ci.
Proof.
  split; [apply keyup_undoes_keydown|].
  unfold keyup_handler, keydown_handler. label_cases ev; reflexivity.
Qed.

(** X9: two key-down events give the same record in either order, whatever
    their keys, and so do two key-up events. *)
Theorem same_kind_events_commute (ev1 ev2 : KeyboardEvent) (ci : InputState) :
  keydown_handler ev1 (keydown_handler ev2 ci) =
    keydown_handler ev2 (keydown_handler ev1 ci)
  /\ keyup_handler ev1 (keyup_handler ev2 ci) =
     keyup_handler ev2 (keyup_handler ev1 ci).
Proof.
  unfold keydown_handler, keyup_handler.
  label_cases ev1; label_cases ev2; split; reflexivity.
Qed.

(** X10: a key-down and a key-up event for different keys give the same
    record in either order. *)
Theorem press_release_commute (ev1 ev2 : KeyboardEvent) (ci : InputState) :
  key ev1 <> key ev2 ->
  keydown_handler ev1 (keyup_handler ev2 ci) =
  keyup_handler ev2 (keydown_handler ev1 ci).
Proof.
  intros Hne. unfold keydown_handler, keyup_handler.
  label_cases ev1; label_cases ev2; try reflexivity;
    match goal with
    | H1 : (key ev1 === ?l) = true, H2 : (key ev2 === ?l) = true |- _ =>
        apply strict_eq_string_true in H1, H2; congruence
    end.
Qed.

(** X11: a key-down event never clears a flag and a key-up event never
    sets one. *)
Theorem handlers_monotone (ev : KeyboardEvent) (ci : InputState) :
  input_le ci (keydown_handler ev ci) = true
  /\ input_le (keyup_handler ev ci) ci = true.
Proof.
  unfold keydown_handler, keyup_handler.
  label_cases ev; destruct ci as [[] [] [] []]; split; reflexivity.
Qed.

(** X12: one key event changes at most one of the four flags. *)
Theorem one_event_one_field (ev : KeyboardEvent) (ci : InputState) :
  changed_fields ci (keydown_handler ev ci) <= 1
  /\ changed_fields ci (keyup_handler ev ci) <= 1.
Proof.
  unfold keydown_handler, keyup_handler.
  label_cases ev; destruct ci as [[] [] [] []]; split; cbv;
    repeat constructor.
Qed.

(** X13: every combination of the four flags is reached by key events
    alone: the listeners keep no two directions apart, so opposite arrows
    can be set together. *)
Theorem every_input_reachable (w : Wasm) (ci : InputState) :
  exists ks : list HostEvent,
    no_frame ks = true /\ curInput (run ks (main w)) = ci.
Proof.
  exists (presses ci). split.
  - destruct ci as [[] [] [] []]; reflexivity.
  - destruct (run_main w (presses ci)) as (_ & -> & _).
    destruct ci as [[] [] [] []]; reflexivity.
Qed.

(** *** The flags over a history *)

Lemma input_after_app (evs1 evs2 : list HostEvent) :
  forall ci : InputState,
    input_after (evs1 ++ evs2) ci = input_after evs2 (input_after evs1 ci).
Proof.
  induction evs1 as [|[type ev|] evs1 IH]; intros ci; simpl.
  - reflexivity.
  - apply IH.
  - apply IH.
Qed.

Lemma arrow_fields_cases (name : string) (get : InputState -> bool) :
  In (name, get) arrow_fields ->
  (name = "ArrowUp" /\ get = up) \/ (name = "ArrowDown" /\ get = down)
  \/ (name = "ArrowLeft" /\ get = left) \/ (name = "ArrowRight" /\ get = right).
Proof.
  unfold arrow_fields. cbn [In].
  intros [H|[H|[H|[H|[]]]]]; injection H as <- <-; auto.
Qed.

(** An event that does not reach the label of a field leaves the field. *)
Lemma field_untouched (name : string) (get : InputState -> bool)
  (e : HostEvent) (ci : InputState) :
  In (name, get) arrow_fields ->
  touches name e = false ->
  get (input_after [e] ci) = get ci.
Proof.
  intros Hin Ht. destruct e as [type ev|]; [|reflexivity].
  cbn [input_after]. unfold handle_key. unfold touches in Ht.
  destruct (String.eqb "keydown" type).
  - cbn [orb andb] in Ht. unfold keydown_handler.
    destruct (arrow_fields_cases _ _ Hin)
      as [[-> ->]|[[-> ->]|[[-> ->]|[-> ->]]]];
      rewrite Ht; label_cases ev; try reflexivity; congruence.
  - destruct (String.eqb "keyup" type); [|reflexivity].
    cbn [orb andb] in Ht. unfold keyup_handler.
    destruct (arrow_fields_cases _ _ Hin)
      as [[-> ->]|[[-> ->]|[[-> ->]|[-> ->]]]];
      rewrite Ht; label_cases ev; try reflexivity; congruence.
Qed.

Lemma field_untouched_by_all (name : string) (get : InputState -> bool)
  (rest : list HostEvent) :
  In (name, get) arrow_fields ->
  forallb (fun e => negb (touches name e)) rest = true ->
  forall ci : InputState, get (input_after rest ci) = get ci.
Proof.
  intros Hin. induction rest as [|e rest IH]; intros Hrest ci.
  - reflexivity.
  - cbn [forallb] in Hrest. apply andb_prop in Hrest.
    destruct Hrest as [He Hrest]. apply negb_true_iff in He.
    change (e :: rest) with ([e] ++ rest).
    rewrite input_after_app, (IH Hrest).
    apply (field_untouched name); assumption.
Qed.

(** X14: a flag tells whether its arrow is held: after a key-down event for
    an arrow and any events that are not key events for that arrow (frames,
    other keys, other event types), the arrow's flag is true; after a key-up
    event and such events it is false, whatever came before. *)
Theorem flag_tracks_last_event (w : Wasm) (evs rest : list HostEvent)
  (name : string) (get : InputState -> bool) :
  In (name, get) arrow_fields ->
  forallb (fun e => negb (touches name e)) rest = true ->
  get (curInput
         (run (evs ++ Dispatch "keydown" (key_event name) :: rest) (main w))) =
    true
  /\ get (curInput
            (run (evs ++ Dispatch "keyup" (key_event name) :: rest) (main w))) =
     false.
Proof.
  intros Hin Hrest.
  destruct (run_main w (evs ++ Dispatch "keydown" (key_event name) :: rest))
    as (_ & -> & _).
  destruct (run_main w (evs ++ Dispatch "keyup" (key_event name) :: rest))
    as (_ & -> & _).
  rewrite !input_after_app. cbn [input_after].
  rewrite !(field_untouched_by_all name get rest Hin Hrest).
  destruct (arrow_fields_cases _ _ Hin)
    as [[-> ->]|[[-> ->]|[[-> ->]|[-> ->]]]]; split; reflexivity.
Qed.

(** X15: a tap between two frames is not seen: when a key is not held (its
    release would change nothing), a key-down and a key-up event for it
    before the next frame leave that frame, its draw and the page after it
    as they would be without the two events. *)
Theorem tap_between_frames_unseen (w : Wasm) (evs : list HostEvent)
  (ev : KeyboardEvent) :
  keyup_handler ev (curInput (run evs (main w))) = curInput (run evs (main w)) ->
  run [Dispatch "keydown" ev; Dispatch "keyup" ev; AnimationFrame]
      (run evs (main w)) =
  run [AnimationFrame] (run evs (main w)).
Proof.
  pose proof (run_main_settled w evs) as Hp.
  generalize dependent (run evs (main w)). intros p Hp Hup.
  change (run [Dispatch "keydown" ev; Dispatch "keyup" ev; AnimationFrame] p)
    with (step AnimationFrame
            (step (Dispatch "keyup" ev) (step (Dispatch "keydown" ev) p))).
  change (run [AnimationFrame] p) with (step AnimationFrame p).
  f_equal.
  rewrite (step_dispatch_page "keyup" ev _ (step_settled _ _ Hp)).
  rewrite (step_dispatch_page "keydown" ev p Hp).
  cbn [wasm curInput listeners output canvas body game frame_requests
       wasm_calls].
  change (handle_key "keyup" ev (handle_key "keydown" ev (curInput p)))
    with (keyup_handler ev (keydown_handler ev (curInput p))).
  rewrite keyup_undoes_keydown, Hup. destruct p; reflexivity.
Qed.

End Coverage.

(** ** The further properties on concrete packages *)

Lemma nothing_drawn_before_first_frame_witness :
  no_frame [Dispatch "keydown" (key_event "ArrowUp");
            Dispatch "keyup" (key_event "ArrowUp")] = true
  /\ (status_text
        (run [Dispatch "keydown" (key_event "ArrowUp");
              Dispatch "keyup" (key_event "ArrowUp")] (loaded JsNull)) = ""
      /\ wasm_calls
           (run [Dispatch "keydown" (key_event "ArrowUp");
                 Dispatch "keyup" (key_event "ArrowUp")] (loaded JsNull)) =
         [@CallMakeGame (constant_game JsNull) 7]
      /\ wasm
           (run [Dispatch "keydown" (key_event "ArrowUp");
                 Dispatch "keyup" (key_event "ArrowUp")] (loaded JsNull)) = 0).
Proof.
  split.
  - reflexivity.
  - apply (@nothing_drawn_before_first_frame (constant_game JsNull) 0
             [Dispatch "keydown" (key_event "ArrowUp");
              Dispatch "keyup" (key_event "ArrowUp")]).
    reflexivity.
Defined.

Lemma status_text_of_last_frame_witness :
  no_frame [Dispatch "keydown" (key_event "ArrowRight")] = true
  /\ status_text
       (run ([AnimationFrame; Dispatch "keyup" (key_event "ArrowUp")]
             ++ AnimationFrame :: [Dispatch "keydown" (key_event "ArrowRight")])
            (loaded JsUndefined)) =
     "Failed to draw!".
Proof.
  split.
  - reflexivity.
  - apply (@status_text_of_last_frame (constant_game JsUndefined) 0
             [AnimationFrame; Dispatch "keyup" (key_event "ArrowUp")]
             [Dispatch "keydown" (key_event "ArrowRight")]).
    reflexivity.
Defined.

Lemma other_event_types_ignored_witness :
  ("keypress" <> "keydown" /\ "keypress" <> "keyup")
  /\ step (Dispatch "keypress" (key_event "ArrowUp"))
          (run [AnimationFrame] (loaded JsNull)) =
     run [AnimationFrame] (loaded JsNull).
Proof.
  split.
  - split; discriminate.
  - apply (@other_event_types_ignored (constant_game JsNull) 0
             [AnimationFrame] "keypress" (key_event "ArrowUp"));
      discriminate.
Defined.

Lemma press_release_commute_witness :
  key (key_event "ArrowUp") <> key (key_event "ArrowDown")
  /\ keydown_handler (key_event "ArrowUp")
       (keyup_handler (key_event "ArrowDown")
          (mkInputState false true false false)) =
     keyup_handler (key_event "ArrowDown")
       (keydown_handler (key_event "ArrowUp")
          (mkInputState false true false false)).
Proof.
  split.
  - discriminate.
  - apply (press_release_commute (key_event "ArrowUp")
             (key_event "ArrowDown")).
    discriminate.
Defined.

Lemma flag_tracks_last_event_witness :
  (In ("ArrowLeft", left) arrow_fields
   /\ forallb (fun e => negb (touches "ArrowLeft" e))
        [AnimationFrame; Dispatch "keyup" (key_event "ArrowUp");
         Dispatch "keypress" (key_event "ArrowLeft")] = true)
  /\ left
       (curInput
          (run ([Dispatch "keyup" (key_event "ArrowLeft")]
                ++ Dispatch "keydown" (key_event "ArrowLeft")
                   :: [AnimationFrame; Dispatch "keyup" (key_event "ArrowUp");
                       Dispatch "keypress" (key_event "ArrowLeft")])
               (loaded JsNull))) = true
  /\ left
       (curInput
          (run ([Dispatch "keyup" (key_event "ArrowLeft")]
                ++ Dispatch "keyup" (key_event "ArrowLeft")
                   :: [AnimationFrame; Dispatch "keyup" (key_event "ArrowUp");
                       Dispatch "keypress" (key_event "ArrowLeft")])
               (loaded JsNull))) = false.
Proof.
  split.
  - split; [right; right; left; reflexivity | reflexivity].
  - apply (@flag_tracks_last_event (constant_game JsNull) 0
             [Dispatch "keyup" (key_event "ArrowLeft")]
             [AnimationFrame; Dispatch "keyup" (key_event "ArrowUp");
              Dispatch "keypress" (key_event "ArrowLeft")]
             "ArrowLeft" left).
    + right; right; left; reflexivity.
    + reflexivity.
Defined.

Lemma tap_between_frames_unseen_witness :
  keyup_handler (key_event "ArrowUp")
    (curInput (run [Dispatch "keydown" (key_event "ArrowLeft")]
                   (loaded (JsObject 1 false)))) =
    curInput (run [Dispatch "keydown" (key_event "ArrowLeft")]
                  (loaded (JsObject 1 false)))
  /\ run [Dispatch "keydown" (key_event "ArrowUp");
          Dispatch "keyup" (key_event "ArrowUp"); AnimationFrame]
         (run [Dispatch "keydown" (key_event "ArrowLeft")]
              (loaded (JsObject 1 false))) =
     run [AnimationFrame]
         (run [Dispatch "keydown" (key_event "ArrowLeft")]
              (loaded (JsObject 1 false))).
Proof.
  split.
  - reflexivity.
  - apply (@tap_between_frames_unseen (constant_game (JsObject 1 false)) 0
             [Dispatch "keydown" (key_event "ArrowLeft")]
             (key_event "ArrowUp")).
    reflexivity.
Defined.
